(** * ast_parser.py: a DOT emitter for a hard-wired expression tree

  The script keeps one module-level counter [handle], hands out node
  identifiers ["x0"], ["x1"], ... from it, renders node and edge lines of
  a Graphviz document by string concatenation, and prints the document
  for the tree  (- 1 2) + 3.

  The embedding is shallow.  Python strings are [string] (a Python 2
  [str] is a byte string, an [ascii] is a byte), Python integers are
  [Z], the arguments of the functions are dynamically typed [value]s and
  every function body runs in a state-and-exception monad over the
  module's global state and the standard output. *)

From Stdlib Require Import ZArith List String Ascii Bool Lia.
From Stdlib Require Import DecimalString DecimalPos DecimalZ DecimalFacts.
Import ListNotations.

Local Open Scope string_scope.
Local Open Scope Z_scope.

(** ** Characters that a Rocq string literal cannot hold *)

(** The line feed character, written backslash-n in the Python source. *)
Definition nl : string := String "010"%char EmptyString.

(** The double quote character, written backslash-quote in the source. *)
Definition dq : string := String "034"%char EmptyString.

(** ** A fragment of Python *)

Module Py.

(** The values considered as arguments of the functions of the script:
    [None], integers and byte strings.  Objects that define their own
    addition, and the other string types of Python 2, are outside of this
    universe: nothing below speaks about them.  Lists only occur as the
    two-element result of [createNode] and are kept as Rocq lists of
    values. *)
Inductive value : Type :=
| VNone
| VInt (z : Z)
| VStr (s : string).

Inductive exn : Type :=
| TypeError
| IndexError.

Inductive result (A : Type) : Type :=
| Ok (a : A)
| Raise (e : exn).
Arguments Ok {A} a.
Arguments Raise {A} e.

(** The mutable state of one process: the module global [handle], which
    the script only ever assigns [0] and [handle + 1], and the bytes
    written to the standard output so far. *)
Record World : Type := mkWorld { handle : Z; stdout : string }.

(** A computation may change the world and may raise; the world
    survives an exception, as it does in Python. *)
Definition M (A : Type) : Type := World -> result A * World.

Definition ret {A : Type} (a : A) : M A := fun w => (Ok a, w).

Definition bind {A B : Type} (m : M A) (k : A -> M B) : M B :=
  fun w =>
    match m w with
    | (Ok a, w') => k a w'
    | (Raise e, w') => (Raise e, w')
    end.

Definition raise {A : Type} (e : exn) : M A := fun w => (Raise e, w).

Definition get_handle : M Z := fun w => (Ok (handle w), w).

Definition set_handle (z : Z) : M unit :=
  fun w => (Ok tt, {| handle := z; stdout := stdout w |}).

Definition write (s : string) : M unit :=
  fun w => (Ok tt, {| handle := handle w; stdout := stdout w ++ s |}).

(** [str(n)] for an integer: the decimal digits, with a leading minus
    sign for a negative number. *)
Definition str_int (z : Z) : string := NilZero.string_of_int (Z.to_int z).

(** The builtin [str]. *)
Definition str (v : value) : string :=
  match v with
  | VNone => "None"
  | VInt z => str_int z
  | VStr s => s
  end.

(** The operator [+]: addition of integers, concatenation of strings,
    [TypeError] for every other pair of operands. *)
Definition add (a b : value) : M value :=
  match a, b with
  | VInt x, VInt y => ret (VInt (x + y))
  | VStr s, VStr t => ret (VStr (s ++ t))
  | _, _ => raise TypeError
  end.

(** Subscription [l[i]] of a list: a negative index counts from the
    end, an index out of range raises [IndexError]. *)
Definition getitem (l : list value) (i : Z) : M value :=
  let n := Z.of_nat (List.length l) in
  let j := if i <? 0 then i + n else i in
  if (j <? 0) || (n <=? j) then raise IndexError
  else match nth_error l (Z.to_nat j) with
       | Some v => ret v
       | None => raise IndexError
       end.

(** The statement [print e] of Python 2: the text of the value, then a
    line feed. *)
Definition print (v : value) : M unit := write (str v ++ nl).

(** [e1 + e2] as an expression: left operand first, then the right one,
    then the operator. *)
Definition plus (e1 e2 : M value) : M value :=
  bind e1 (fun a => bind e2 (fun b => add a b)).

Definition lit (s : string) : M value := ret (VStr s).

End Py.

Import Py.

Declare Scope py_scope.
Delimit Scope py_scope with py.
Notation "x <- m ;; k" := (bind m (fun x => k))
  (at level 61, m at next level, right associativity) : py_scope.
Notation "m ;;; k" := (bind m (fun _ => k))
  (at level 61, right associativity) : py_scope.
Notation "a [+] b" := (plus a b)
  (at level 50, left associativity) : py_scope.
Local Open Scope py_scope.

(** ** The script *)

Module AstParser.

(** [handle = 0] and nothing printed yet. *)
Definition init : World := {| handle := 0; stdout := EmptyString |}.

(** <<
    def createNode(label):
        global handle
        variable = "x" + str(handle)
        handle = handle + 1
        return [variable, variable + LABEL_OPEN + label + LABEL_CLOSE]
    >>
    where LABEL_OPEN is the literal made of a space, an opening bracket,
    label= and a double quote, and LABEL_CLOSE the literal made of a
    double quote, a comma, shape=circle, a closing bracket and a line
    feed.  The global is read twice, once for [str] and once for the
    increment. *)
Definition createNode (label : value) : M (list value) :=
  h <- get_handle ;;
  variable <- lit "x" [+] lit (str (VInt h)) ;;
  h <- get_handle ;;
  set_handle (h + 1) ;;;
  decl <- ret variable [+] lit (" [label=" ++ dq) [+] ret label
            [+] lit (dq ++ ",shape=circle]" ++ nl) ;;
  ret [variable; decl].

(** <<
    def createChild(parent, child, options = EMPTY):
        return parent + " -> " + child + options + LF
    >>
    where EMPTY is the empty string literal and LF the one-character
    literal holding a line feed.  An omitted third argument is [None]
    here and takes the default. *)
Definition createChild (parent child : value) (options : option value)
  : M value :=
  let options :=
    match options with Some o => o | None => VStr EmptyString end in
  ret parent [+] lit " -> " [+] ret child [+] ret options [+] lit nl.

(** <<
    def createWrapper(code):
        return HEADER + code + "}"
    >>
    where HEADER is the literal [strict digraph X {] followed by a line
    feed. *)
Definition createWrapper (code : value) : M value :=
  lit ("strict digraph X {" ++ nl) [+] ret code [+] lit "}".

(** A call [createChild(a[i], b[j])]: the arguments are evaluated from
    left to right, then the function is entered. *)
Definition callChild (a : list value) (i : Z) (b : list value) (j : Z)
  : M value :=
  p <- getitem a i ;;
  c <- getitem b j ;;
  createChild p c None.

(** <<
    def simpleAST():
        minusNode = createNode("-")
        plusNode = createNode("+")
        oneNode = createNode("1")
        twoNode = createNode("2")
        threeNode = createNode("3")
        string = minusNode[1] + plusNode[1] + oneNode[1]
        string = string + twoNode[1] + threeNode[1]
        string = string + createChild(minusNode[0], oneNode[0])
        string = string + createChild(minusNode[0], twoNode[0])
        string = string + createChild(plusNode[0], minusNode[0])
        string = string + createChild(plusNode[0], threeNode[0])
        return string
    >> *)
Definition simpleAST : M value :=
  minusNode <- createNode (VStr "-") ;;
  plusNode <- createNode (VStr "+") ;;
  oneNode <- createNode (VStr "1") ;;
  twoNode <- createNode (VStr "2") ;;
  threeNode <- createNode (VStr "3") ;;
  string <- getitem minusNode 1 [+] getitem plusNode 1
              [+] getitem oneNode 1 ;;
  string <- ret string [+] getitem twoNode 1 [+] getitem threeNode 1 ;;
  string <- ret string [+] callChild minusNode 0 oneNode 0 ;;
  string <- ret string [+] callChild minusNode 0 twoNode 0 ;;
  string <- ret string [+] callChild plusNode 0 minusNode 0 ;;
  string <- ret string [+] callChild plusNode 0 threeNode 0 ;;
  ret string.

(** <<
    def getCode():
        print createWrapper(simpleAST())
    >> *)
Definition getCode : M unit :=
  code <- simpleAST ;;
  document <- createWrapper code ;;
  print document.

(** Running the script: the module body ends with the call
    [getCode()], executed in the initial world. *)
Definition main : result unit * World := getCode init.

End AstParser.

Import AstParser.

(** ** Vocabulary of the properties

    Nothing below is part of the script: these are the notions the
    statements about it are phrased in. *)

Module Text.

(** [a ++ p ++ b] for some [a] and [b]: [p] occurs in [s]. *)
Definition Substring (p s : string) : Prop :=
  exists a b : string, s = a ++ p ++ b.

(** Python's [p in s]. *)
Fixpoint contains (p s : string) : bool :=
  prefix p s ||
  match s with
  | EmptyString => false
  | String _ s' => contains p s'
  end.

(** Python's slice [s[a:b]]: a negative bound counts from the end and
    both bounds are clipped to the string. *)
Definition clip (n i : Z) : Z :=
  Z.max 0 (Z.min n (if i <? 0 then i + n else i)).

Definition slice (s : string) (a b : Z) : string :=
  let n := Z.of_nat (length s) in
  let lo := clip n a in
  let hi := clip n b in
  substring (Z.to_nat lo) (Z.to_nat (hi - lo)) s.

Definition len (s : string) : Z := Z.of_nat (length s).

(** The lines of a text: every line feed ends a line, and what follows the
    last line feed is a line when it is not empty. *)
Fixpoint lines (s : string) : list string :=
  match s with
  | EmptyString => []
  | String c s' =>
      if Ascii.eqb c "010" then EmptyString :: lines s'
      else match lines s' with
           | [] => [String c EmptyString]
           | l :: ls => String c l :: ls
           end
  end.

Fixpoint strip_prefix (p s : string) : option string :=
  match p, s with
  | EmptyString, _ => Some s
  | String a p', String b s' =>
      if Ascii.eqb a b then strip_prefix p' s' else None
  | String _ _, EmptyString => None
  end.

(** Python's [s.partition(sep)]: the text before and after the first
    occurrence of [sep], when there is one. *)
Fixpoint split_at (sep s : string) : option (string * string) :=
  match strip_prefix sep s with
  | Some r => Some (EmptyString, r)
  | None =>
      match s with
      | EmptyString => None
      | String c s' =>
          match split_at sep s' with
          | Some (a, b) => Some (String c a, b)
          | None => None
          end
      end
  end.

Definition strip_suffix (p s : string) : option string :=
  let n := length s in
  let m := length p in
  if (m <=? n)%nat && String.eqb (substring (n - m) m s) p
  then Some (substring 0 (n - m) s)
  else None.

(** No character of [s] satisfies [bad]. *)
Fixpoint avoids (bad : ascii -> bool) (s : string) : bool :=
  match s with
  | EmptyString => true
  | String c s' => negb (bad c) && avoids bad s'
  end.

Definition is_space (c : ascii) : bool := Ascii.eqb " " c.

Definition is_nl (c : ascii) : bool := Ascii.eqb c "010".

Definition is_x (c : ascii) : bool := Ascii.eqb c "x".

End Text.

Import Text.

(** A call returned normally, with a value that satisfies [P]. *)
Definition yields {A : Type} (x : result A * World) (P : A -> Prop) : Prop :=
  match fst x with
  | Ok a => P a
  | Raise _ => False
  end.

Module Dot.

(** The identifier the script derives from counter value [c]. *)
Definition ident (c : Z) : string := "x" ++ str_int c.

(** A node declaration line, line feed included. *)
Definition decl_line (id label : string) : string :=
  id ++ " [label=" ++ dq ++ label ++ dq ++ ",shape=circle]" ++ nl.

(** An edge line, line feed included. *)
Definition edge_line (parent child options : string) : string :=
  parent ++ " -> " ++ child ++ options ++ nl.

Definition header : string := "strict digraph X {" ++ nl.

(** What one line of a document says. *)
Inductive item : Type :=
| Decl (id label : string)
| Edge (parent child : string).

(** A line with an arrow is an edge, from what stands before the arrow to
    what stands after it; a line that opens a label after the identifier
    and closes it with the circle shape is a node declaration. *)
Definition parse_line (l : string) : option item :=
  match split_at " -> " l with
  | Some (a, b) => Some (Edge a b)
  | None =>
      match split_at (" [label=" ++ dq) l with
      | Some (id, rest) =>
          match strip_suffix (dq ++ ",shape=circle]") rest with
          | Some label => Some (Decl id label)
          | None => None
          end
      | None => None
      end
  end.

Definition is_decl (i : option item) : bool :=
  match i with Some (Decl _ _) => true | _ => false end.

Definition is_edge (i : option item) : bool :=
  match i with Some (Edge _ _) => true | _ => false end.


Definition digit_of (c : ascii) : option (Decimal.uint -> Decimal.uint) :=
  match c with
  | "0" => Some Decimal.D0
  | "1" => Some Decimal.D1
  | "2" => Some Decimal.D2
  | "3" => Some Decimal.D3
  | "4" => Some Decimal.D4
  | "5" => Some Decimal.D5
  | "6" => Some Decimal.D6
  | "7" => Some Decimal.D7
  | "8" => Some Decimal.D8
  | "9" => Some Decimal.D9
  | _ => None
  end%char.

(** An identifier read so far: [None] outside of one, [Some ds] after the
    letter x and the digits [ds], last digit first. *)
Definition flush (k : Z) (pending : option Decimal.uint) : string :=
  match pending with
  | None => EmptyString
  | Some Decimal.Nil => "x"
  | Some ds => "x" ++ str_int (Z.of_uint (Decimal.rev ds) + k)
  end.

(** [renumber k None s] is [s] with [k] added to the number of every
    identifier, an identifier being the letter x followed by one or more
    decimal digits; every other character is kept. *)
Fixpoint renumber (k : Z) (pending : option Decimal.uint) (s : string)
  : string :=
  match s with
  | EmptyString => flush k pending
  | String c s' =>
      match pending, digit_of c with
      | Some ds, Some d => renumber k (Some (d ds)) s'
      | _, _ =>
          flush k pending ++
          (if Ascii.eqb c "x" then renumber k (Some Decimal.Nil) s'
           else String c (renumber k None s'))
      end
  end.

Definition shift_ids (k : Z) (s : string) : string := renumber k None s.

End Dot.

Import Dot.

(** ** The example tree, as the specification words it *)

Module Spec.

Fixpoint mapM {A B : Type} (f : A -> M B) (l : list A) : M (list B) :=
  match l with
  | [] => ret []
  | a :: l' => b <- f a ;; bs <- mapM f l' ;; ret (b :: bs)
  end.

(** The labels of the five nodes, in creation order: minus, plus, one,
    two, three. *)
Definition labels : list string := ["-"; "+"; "1"; "2"; "3"].

(** The four edges as positions in creation order: (minus, one),
    (minus, two), (plus, minus), (plus, three). *)
Definition edges : list (nat * nat) :=
  [(0, 2); (0, 3); (1, 0); (1, 4)]%nat.

(** The five node creations of one call of the builder. *)
Definition createNodes : M (list (list value)) :=
  mapM createNode (map VStr labels).

Definition text_of (v : value) : string :=
  match v with VStr s => s | _ => EmptyString end.

Definition id_of (node : list value) : string :=
  text_of (nth 0 node VNone).

Definition fragment_of (node : list value) : string :=
  text_of (nth 1 node VNone).

(** The nine fragments: the declarations of the nodes in creation order,
    then one edge fragment per edge. *)
Definition fragments (nodes : list (list value)) : list string :=
  map fragment_of nodes ++
  map (fun e => edge_line (id_of (nth (fst e) nodes []))
                          (id_of (nth (snd e) nodes [])) EmptyString)
      edges.

(** The same nine fragments written out for a call that finds the counter
    at [c]. *)
Definition example_fragments (c : Z) : list string :=
  [ decl_line (ident c) "-";
    decl_line (ident (c + 1)) "+";
    decl_line (ident (c + 2)) "1";
    decl_line (ident (c + 3)) "2";
    decl_line (ident (c + 4)) "3";
    edge_line (ident c) (ident (c + 2)) EmptyString;
    edge_line (ident c) (ident (c + 3)) EmptyString;
    edge_line (ident (c + 1)) (ident c) EmptyString;
    edge_line (ident (c + 1)) (ident (c + 4)) EmptyString ].

(** The document of section 6 of the specification, up to and including
    its closing brace. *)
Definition document : string :=
  "strict digraph X {" ++ nl ++
  "x0 [label=" ++ dq ++ "-" ++ dq ++ ",shape=circle]" ++ nl ++
  "x1 [label=" ++ dq ++ "+" ++ dq ++ ",shape=circle]" ++ nl ++
  "x2 [label=" ++ dq ++ "1" ++ dq ++ ",shape=circle]" ++ nl ++
  "x3 [label=" ++ dq ++ "2" ++ dq ++ ",shape=circle]" ++ nl ++
  "x4 [label=" ++ dq ++ "3" ++ dq ++ ",shape=circle]" ++ nl ++
  "x0 -> x2" ++ nl ++
  "x0 -> x3" ++ nl ++
  "x1 -> x0" ++ nl ++
  "x1 -> x4" ++ nl ++
  "}".

Definition buildExampleTree : M value :=
  nodes <- createNodes ;;
  ret (VStr (String.concat EmptyString (fragments nodes))).

(** The identifiers handed out by the node creations of a call of the
    builder that starts in world [w]. *)
Definition created (w : World) : list string :=
  match fst (createNodes w) with
  | Ok nodes => map id_of nodes
  | Raise _ => []
  end.

End Spec.

(** ** Runs: sequences of calls into the module *)

Module Run.

Inductive call : Type :=
| CreateNode (label : value)
| CreateChild (parent child : value) (options : option value)
| CreateWrapper (code : value)
| SimpleAST
| GetCode.

Inductive outcome : Type :=
| Node (r : result (list value))
| Val (r : result value)
| Done (r : result unit).

Definition perform (c : call) (w : World) : outcome * World :=
  match c with
  | CreateNode label => let (r, w') := createNode label w in (Node r, w')
  | CreateChild p c o => let (r, w') := createChild p c o w in (Val r, w')
  | CreateWrapper code => let (r, w') := createWrapper code w in (Val r, w')
  | SimpleAST => let (r, w') := simpleAST w in (Val r, w')
  | GetCode => let (r, w') := getCode w in (Done r, w')
  end.

(** The calls of a run with what each returned, in order; an exception
    is recorded and the run goes on, as under a handler. *)
Fixpoint trace (cs : list call) (w : World) : list (call * outcome) :=
  match cs with
  | [] => []
  | c :: cs' => let (o, w') := perform c w in (c, o) :: trace cs' w'
  end.

(** The identifiers handed out while a call runs in world [w]: the one a
    [createNode] call returns, the five of a call of the builder. *)
Definition issued (c : call) (w : World) : list string :=
  match c with
  | CreateNode label =>
      match fst (createNode label w) with
      | Ok node => [Spec.id_of node]
      | Raise _ => []
      end
  | SimpleAST | GetCode => Spec.created w
  | CreateChild _ _ _ | CreateWrapper _ => []
  end.

Fixpoint all_issued (cs : list call) (w : World) : list string :=
  match cs with
  | [] => []
  | c :: cs' => issued c w ++ all_issued cs' (snd (perform c w))
  end.

(** The world a run ends in. *)
Fixpoint final (cs : list call) (w : World) : World :=
  match cs with
  | [] => w
  | c :: cs' => final cs' (snd (perform c w))
  end.

End Run.

(** ** Bookkeeping over runs

    More vocabulary, for the statements about whole runs and about the
    failure of the builders. *)

Module Account.

Import Run.


(** The line feeds of a text. *)
Fixpoint count_nl (s : string) : nat :=
  match s with
  | EmptyString => 0
  | String c s' => ((if is_nl c then 1 else 0) + count_nl s')%nat
  end.

(** How many identifiers a call asks the counter for. *)
Definition advance (c : call) : Z :=
  match c with
  | CreateNode _ => 1
  | SimpleAST | GetCode => 5
  | CreateChild _ _ _ | CreateWrapper _ => 0
  end.

Fixpoint requested (cs : list call) : Z :=
  match cs with
  | [] => 0
  | c :: cs' => advance c + requested cs'
  end.



(** What [createWrapper(simpleAST())] evaluates to in world [w]. *)
Definition document_at (w : World) : string :=
  match simpleAST w with
  | (Ok code, w1) =>
      match fst (createWrapper code w1) with
      | Ok d => Spec.text_of d
      | Raise _ => EmptyString
      end
  | (Raise _, _) => EmptyString
  end.

(** The documents of the [getCode] calls of a run, each taken in the
    world its call starts in. *)
Fixpoint documents (cs : list call) (w : World) : list string :=
  match cs with
  | [] => []
  | c :: cs' =>
      match c with GetCode => [document_at w] | _ => [] end
      ++ documents cs' (snd (perform c w))
  end.

Definition is_getCode (c : call) : bool :=
  match c with GetCode => true | _ => false end.



End Account.

(** * Properties *)

(** ** Strings *)

Section StringFacts.

Lemma append_nil_r (s : string) : s ++ EmptyString = s.
Proof. induction s as [|c s IH]; simpl; [reflexivity | now rewrite IH]. Qed.

Lemma append_assoc (a b c : string) : (a ++ b) ++ c = a ++ b ++ c.
Proof. induction a as [|x a IH]; simpl; [reflexivity | now rewrite IH]. Qed.

Lemma length_append (a b : string) :
  length (a ++ b) = (length a + length b)%nat.
Proof. induction a as [|x a IH]; simpl; [reflexivity | now rewrite IH]. Qed.

Lemma substring_all (s t : string) : substring 0 (length s) (s ++ t) = s.
Proof. induction s as [|c s IH]; simpl; [now destruct t | now rewrite IH]. Qed.

Lemma substring_skip (a b : string) (m : nat) :
  substring (length a) m (a ++ b) = substring 0 m b.
Proof. induction a as [|c a IH]; simpl; [reflexivity | exact IH]. Qed.

Lemma prefix_append (p b : string) : prefix p (p ++ b) = true.
Proof.
  induction p as [|c p IH]; simpl; [now destruct b |].
  destruct (ascii_dec c c) as [_ | ne]; [exact IH | now elim ne].
Qed.

Lemma prefix_inv (p s : string) :
  prefix p s = true -> exists b : string, s = p ++ b.
Proof.
  revert s; induction p as [|c p IH]; intros s H.
  - now exists s.
  - destruct s as [|d s]; simpl in H; [discriminate |].
    destruct (ascii_dec c d) as [-> | _]; [| discriminate].
    destruct (IH s H) as [b ->]. now exists b.
Qed.

Lemma contains_append (a p b : string) : contains p (a ++ p ++ b) = true.
Proof.
  induction a as [|c a IH].
  - simpl. pose proof (prefix_append p b) as H.
    destruct (p ++ b) as [|c s].
    + change (prefix p EmptyString || false = true). now rewrite H.
    + change (prefix p (String c s) || contains p s = true). now rewrite H.
  - simpl. rewrite IH. apply orb_true_r.
Qed.

Lemma contains_Substring (p s : string) :
  contains p s = true <-> Substring p s.
Proof.
  split.
  - induction s as [|c s IH]; intros H.
    + change (prefix p EmptyString || false = true) in H.
      rewrite orb_false_r in H. destruct (prefix_inv _ _ H) as [b E].
      now exists EmptyString, b.
    + change (prefix p (String c s) || contains p s = true) in H.
      apply orb_true_iff in H as [H | H].
      * destruct (prefix_inv _ _ H) as [b E]. now exists EmptyString, b.
      * destruct (IH H) as (a & b & ->). now exists (String c a), b.
  - intros (a & b & ->). apply contains_append.
Qed.

End StringFacts.

(** ** The builtin [str] on integers *)

Example str_int_0 : str_int 0 = "0".
Proof. reflexivity. Qed.

Example str_int_1984 : str_int 1984 = "1984".
Proof. reflexivity. Qed.

Example str_int_neg : str_int (-30) = "-30".
Proof. reflexivity. Qed.

Lemma to_int_proper (z : Z) :
  Z.to_int z <> Decimal.Pos Decimal.Nil /\
  Z.to_int z <> Decimal.Neg Decimal.Nil.
Proof.
  destruct z as [|p|p]; simpl; split; try discriminate;
    intros [= E]; exact (DecimalPos.Unsigned.to_uint_nonnil p E).
Qed.

(** Distinct integers print differently. *)
Lemma str_int_inj (a b : Z) : str_int a = str_int b -> a = b.
Proof.
  unfold str_int. intros E.
  apply DecimalZ.to_int_inj.
  pose proof (to_int_proper a) as [Ha Ha'].
  pose proof (to_int_proper b) as [Hb Hb'].
  pose proof (NilZero.isi _ Ha Ha') as Ia.
  pose proof (NilZero.isi _ Hb Hb') as Ib.
  rewrite E, Ib in Ia. now injection Ia.
Qed.

Lemma ident_inj (a b : Z) : ident a = ident b -> a = b.
Proof. unfold ident. intros [= E]. now apply str_int_inj. Qed.

(** ** The three string builders *)

Lemma createNode_str (label : string) (w : World) :
  createNode (VStr label) w =
  (Ok [VStr (ident (handle w)); VStr (decl_line (ident (handle w)) label)],
   {| handle := handle w + 1; stdout := stdout w |}).
Proof.
  unfold createNode, decl_line, ident; cbn -[str_int Z.add append].
  now rewrite !append_assoc.
Qed.

Lemma createNode_world (label : value) (w : World) :
  snd (createNode label w) = {| handle := handle w + 1; stdout := stdout w |}.
Proof. destruct label; reflexivity. Qed.

Lemma createChild_str (parent child options : string) (w : World) :
  createChild (VStr parent) (VStr child) (Some (VStr options)) w =
  (Ok (VStr (edge_line parent child options)), w).
Proof.
  unfold createChild, edge_line; cbn -[append].
  now rewrite !append_assoc.
Qed.

Lemma createChild_default (parent child : value) (w : World) :
  createChild parent child None w =
  createChild parent child (Some (VStr EmptyString)) w.
Proof. reflexivity. Qed.

Lemma createWrapper_str (code : string) (w : World) :
  createWrapper (VStr code) w = (Ok (VStr (header ++ code ++ "}")), w).
Proof.
  unfold createWrapper, header; cbn -[append].
  now rewrite !append_assoc.
Qed.

Lemma createChild_frame (parent child : value) (options : option value)
  (w : World) :
  snd (createChild parent child options w) = w.
Proof.
  destruct options as [[| |o]|], parent as [| |p], child as [| |c];
    reflexivity.
Qed.

Lemma createWrapper_frame (code : value) (w : World) :
  snd (createWrapper code w) = w.
Proof. destruct code; reflexivity. Qed.

(** A label that is not a string makes [createNode] raise, after the
    counter has moved. *)
Example createNode_int_label :
  createNode (VInt 3) init = (Raise TypeError, {| handle := 1; stdout := EmptyString |}).
Proof. reflexivity. Qed.

Lemma slice_middle (a s b : string) :
  (0 < length b)%nat ->
  slice (a ++ s ++ b) (len a) (- len b) = s.
Proof.
  intros Hb. unfold slice, clip, len.
  rewrite !length_append.
  set (la := length a); set (ls := length s); set (lb := length b) in *.
  destruct (Z.ltb_spec (Z.of_nat la) 0) as [H | _]; [lia |].
  destruct (Z.ltb_spec (- Z.of_nat lb) 0) as [_ | H]; [| lia].
  replace (Z.to_nat (Z.max 0 (Z.min (Z.of_nat (la + (ls + lb))) (Z.of_nat la))))
    with la by lia.
  match goal with |- substring _ ?m _ = _ => replace m with ls by lia end.
  subst la ls. now rewrite substring_skip, substring_all.
Qed.

(** C3. For every string label and every counter value c, createNode
    returns the identifier made of the letter x and the decimal digits of
    c, leaves the counter at c + 1 (and the output untouched), and returns
    as declaration fragment the identifier followed by a space, the
    bracketed label attribute with the label between double quotes, the
    circle shape and a line feed.  In particular the fragment made for
    the label foo contains the label attribute of foo and the text
    shape=circle. *)
Theorem createNode_spec (label : string) (c : Z) (out : string) :
  createNode (VStr label) {| handle := c; stdout := out |} =
  (Ok [VStr ("x" ++ str_int c);
       VStr (("x" ++ str_int c) ++ " [label=" ++ dq ++ label ++ dq
             ++ ",shape=circle]" ++ nl)],
   {| handle := c + 1; stdout := out |})
  /\ yields (createNode (VStr "foo") {| handle := c; stdout := out |})
       (fun node =>
          contains ("label=" ++ dq ++ "foo" ++ dq) (Spec.fragment_of node)
          = true
          /\ contains "shape=circle" (Spec.fragment_of node) = true).
Proof.
  split; [apply createNode_str |].
  unfold yields. rewrite createNode_str.
  cbn -[str_int contains append]. unfold decl_line, ident.
  split; apply contains_Substring.
  - exists (("x" ++ str_int c) ++ " ["), (",shape=circle]" ++ nl).
    now rewrite !append_assoc.
  - exists (("x" ++ str_int c) ++ " [label=" ++ dq ++ "foo" ++ dq ++ ","),
      ("]" ++ nl).
    now rewrite !append_assoc.
Qed.

(** C4. For every string s, createWrapper returns the header, then s,
    then a closing brace, and nothing else: cutting the header off the
    front and the last character off the end gives s back. *)
Theorem createWrapper_roundtrip (s : string) (w : World) :
  yields (createWrapper (VStr s) w)
    (fun v =>
       v = VStr (("strict digraph X {" ++ nl) ++ s ++ "}")
       /\ slice (Spec.text_of v) (len ("strict digraph X {" ++ nl)) (-1) = s).
Proof.
  unfold yields. rewrite createWrapper_str. cbn [fst Spec.text_of].
  split; [reflexivity |].
  apply (slice_middle header s "}"). simpl. lia.
Qed.

(** C5. For all strings parent, child and options, createChild returns
    parent, an arrow between spaces, child, options and a line feed;
    without the third argument the options are empty; and the call with
    a, b and the dashed style returns the line of the specification. *)
Theorem createChild_spec (parent child options : string) (w : World) :
  createChild (VStr parent) (VStr child) (Some (VStr options)) w =
    (Ok (VStr (parent ++ " -> " ++ child ++ options ++ nl)), w)
  /\ createChild (VStr parent) (VStr child) None w =
    (Ok (VStr (parent ++ " -> " ++ child ++ nl)), w)
  /\ createChild (VStr "a") (VStr "b") (Some (VStr " [style=dashed]")) w =
    (Ok (VStr ("a -> b [style=dashed]" ++ nl)), w).
Proof.
  split; [| split].
  - apply createChild_str.
  - rewrite createChild_default, createChild_str. reflexivity.
  - reflexivity.
Qed.

(** C8. createChild and createWrapper are pure: whatever their arguments,
    strings or not, the counter and the output are as before the call,
    and the result is the same in every world. *)
Theorem builders_pure (parent child code : value) (options : option value)
  (w w' : World) :
  snd (createChild parent child options w) = w
  /\ snd (createWrapper code w) = w
  /\ fst (createChild parent child options w) =
     fst (createChild parent child options w')
  /\ fst (createWrapper code w) = fst (createWrapper code w').
Proof.
  split; [| split; [| split]].
  - apply createChild_frame.
  - apply createWrapper_frame.
  - destruct options as [[| |o]|], parent as [| |p], child as [| |c];
      reflexivity.
  - destruct code; reflexivity.
Qed.

(** ** One call of the example-tree builder *)

Lemma simpleAST_run (w : World) :
  simpleAST w =
  (Ok (VStr (String.concat EmptyString (Spec.example_fragments (handle w)))),
   {| handle := handle w + 5; stdout := stdout w |}).
Proof.
  destruct w as [c out].
  cbv -[str_int Z.add append].
  rewrite <- !Z.add_assoc. cbn [Z.add Pos.add Pos.succ].
  now rewrite !append_assoc.
Qed.

Lemma createNodes_run (w : World) :
  Spec.createNodes w =
  (Ok [ [VStr (ident (handle w)); VStr (decl_line (ident (handle w)) "-")];
        [VStr (ident (handle w + 1));
         VStr (decl_line (ident (handle w + 1)) "+")];
        [VStr (ident (handle w + 2));
         VStr (decl_line (ident (handle w + 2)) "1")];
        [VStr (ident (handle w + 3));
         VStr (decl_line (ident (handle w + 3)) "2")];
        [VStr (ident (handle w + 4));
         VStr (decl_line (ident (handle w + 4)) "3")] ],
   {| handle := handle w + 5; stdout := stdout w |}).
Proof.
  destruct w as [c out].
  cbv -[str_int Z.add append].
  rewrite <- !Z.add_assoc. cbn [Z.add Pos.add Pos.succ].
  now rewrite !append_assoc.
Qed.

Lemma buildExampleTree_run (w : World) :
  Spec.buildExampleTree w =
  (Ok (VStr (String.concat EmptyString (Spec.example_fragments (handle w)))),
   {| handle := handle w + 5; stdout := stdout w |}).
Proof.
  unfold Spec.buildExampleTree, bind. rewrite createNodes_run.
  reflexivity.
Qed.

(** ** Reading a document back *)

Section Reading.

Lemma avoids_append (bad : ascii -> bool) (a b : string) :
  avoids bad (a ++ b) = avoids bad a && avoids bad b.
Proof.
  induction a as [|c a IH]; simpl; [reflexivity |].
  now rewrite IH, andb_assoc.
Qed.

(** A printed integer holds digits and at most a minus sign. *)
Lemma str_int_avoids (bad : ascii -> bool) (z : Z) :
  avoids bad "0123456789-" = true -> avoids bad (str_int z) = true.
Proof.
  intros H. simpl in H.
  repeat (apply andb_true_iff in H as [?H H]).
  assert (U : forall d, avoids bad (NilEmpty.string_of_uint d) = true).
  { induction d; simpl; rewrite ?IHd; try reflexivity;
      now rewrite andb_true_r. }
  assert (V : forall d, avoids bad (NilZero.string_of_uint d) = true).
  { intros [| | | | | | | | | |]; try apply U. simpl. now rewrite H0. }
  unfold str_int. destruct (Z.to_int z) as [d | d]; simpl.
  - apply V.
  - rewrite V. now rewrite H10.
Qed.

Lemma ident_avoids (bad : ascii -> bool) (z : Z) :
  avoids bad "x0123456789-" = true -> avoids bad (ident z) = true.
Proof.
  intros H. unfold ident.
  change (avoids bad ("x" ++ "0123456789-") = true) in H.
  rewrite avoids_append in H. rewrite avoids_append.
  apply andb_true_iff in H as [Hx Hd].
  now rewrite Hx, str_int_avoids.
Qed.

Lemma lines_cons (l rest : string) :
  avoids is_nl l = true -> lines (l ++ nl ++ rest) = l :: lines rest.
Proof.
  induction l as [|c l IH]; intros H.
  - reflexivity.
  - simpl in H. apply andb_true_iff in H as [Hc Hl].
    change (lines (String c (l ++ nl ++ rest)) = String c l :: lines rest).
    cbn [lines]. unfold is_nl in Hc. apply negb_true_iff in Hc.
    now rewrite Hc, (IH Hl).
Qed.

Lemma split_at_skip (sep a t : string) :
  avoids is_space a = true ->
  split_at (String " " sep) (a ++ t) =
  match split_at (String " " sep) t with
  | Some (u, v) => Some (a ++ u, v)
  | None => None
  end.
Proof.
  induction a as [|c a IH]; intros H.
  - simpl append. now destruct (split_at (String " " sep) t) as [[u v]|].
  - simpl in H. apply andb_true_iff in H as [Hc Ha].
    unfold is_space in Hc. apply negb_true_iff in Hc.
    change ((String c a) ++ t) with (String c (a ++ t)).
    cbn [split_at strip_prefix]. rewrite Hc, (IH Ha).
    now destruct (split_at (String " " sep) t) as [[u v]|].
Qed.

End Reading.

Section ExampleDocument.

Lemma decl_line_split (id label : string) :
  decl_line id label =
  (id ++ " [label=" ++ dq ++ label ++ dq ++ ",shape=circle]") ++ nl.
Proof. unfold decl_line. now rewrite !append_assoc. Qed.

Lemma edge_line_split (parent child : string) :
  edge_line parent child EmptyString = (parent ++ " -> " ++ child) ++ nl.
Proof. unfold edge_line. now rewrite !append_assoc. Qed.

Lemma lines_concat_cons (l : string) (fs : list string) :
  avoids is_nl l = true ->
  lines (String.concat EmptyString ((l ++ nl) :: fs)) =
  l :: lines (String.concat EmptyString fs).
Proof.
  intros H. destruct fs as [|f fs].
  - cbn [String.concat].
    rewrite <- (append_nil_r (l ++ nl)), append_assoc.
    now rewrite lines_cons.
  - change (String.concat EmptyString ((l ++ nl) :: f :: fs))
      with ((l ++ nl) ++ String.concat EmptyString (f :: fs)).
    now rewrite append_assoc, lines_cons.
Qed.

Ltac avoid_tac :=
  rewrite ?avoids_append, ?ident_avoids by reflexivity; reflexivity.

Lemma example_lines (c : Z) :
  lines (String.concat EmptyString (Spec.example_fragments c)) =
  [ ident c ++ " [label=" ++ dq ++ "-" ++ dq ++ ",shape=circle]";
    ident (c + 1) ++ " [label=" ++ dq ++ "+" ++ dq ++ ",shape=circle]";
    ident (c + 2) ++ " [label=" ++ dq ++ "1" ++ dq ++ ",shape=circle]";
    ident (c + 3) ++ " [label=" ++ dq ++ "2" ++ dq ++ ",shape=circle]";
    ident (c + 4) ++ " [label=" ++ dq ++ "3" ++ dq ++ ",shape=circle]";
    ident c ++ " -> " ++ ident (c + 2);
    ident c ++ " -> " ++ ident (c + 3);
    ident (c + 1) ++ " -> " ++ ident c;
    ident (c + 1) ++ " -> " ++ ident (c + 4) ].
Proof.
  unfold Spec.example_fragments.
  rewrite !decl_line_split, !edge_line_split.
  repeat (rewrite lines_concat_cons by avoid_tac).
  reflexivity.
Qed.

Lemma parse_edge (a b : Z) :
  parse_line (ident a ++ " -> " ++ ident b) =
  Some (Edge (ident a) (ident b)).
Proof.
  unfold parse_line.
  rewrite split_at_skip by avoid_tac.
  cbn [append split_at strip_prefix Ascii.eqb Bool.eqb].
  now rewrite append_nil_r.
Qed.

Lemma parse_decl (c : Z) (label : string) :
  In label Spec.labels ->
  parse_line (ident c ++ " [label=" ++ dq ++ label ++ dq ++ ",shape=circle]")
  = Some (Decl (ident c) label).
Proof.
  intros H. unfold parse_line.
  rewrite (split_at_skip "-> " (ident c)) by avoid_tac.
  rewrite (split_at_skip ("[label=" ++ dq) (ident c)) by avoid_tac.
  simpl in H. decompose [or] H; subst; try contradiction;
    (simpl; now rewrite append_nil_r).
Qed.

Lemma example_items (c : Z) :
  map parse_line (lines (String.concat EmptyString (Spec.example_fragments c)))
  = [ Some (Decl (ident c) "-");
      Some (Decl (ident (c + 1)) "+");
      Some (Decl (ident (c + 2)) "1");
      Some (Decl (ident (c + 3)) "2");
      Some (Decl (ident (c + 4)) "3");
      Some (Edge (ident c) (ident (c + 2)));
      Some (Edge (ident c) (ident (c + 3)));
      Some (Edge (ident (c + 1)) (ident c));
      Some (Edge (ident (c + 1)) (ident (c + 4))) ].
Proof.
  rewrite example_lines. cbn [map].
  rewrite !parse_edge.
  rewrite !parse_decl by (simpl; tauto).
  reflexivity.
Qed.


End ExampleDocument.

Lemma getCode_run (w : World) :
  getCode w =
  (Ok tt,
   {| handle := handle w + 5;
      stdout :=
        stdout w ++
        (header ++
         String.concat EmptyString (Spec.example_fragments (handle w)) ++ "}")
        ++ nl |}).
Proof.
  unfold getCode, bind. rewrite simpleAST_run, createWrapper_str.
  reflexivity.
Qed.

(** ** The claims about the example tree and the whole program *)

(** C1. Running the program with the counter freshly at 0 ends normally
    and leaves on the standard output, byte for byte, the text of
    section 6 of the specification: the header line, the five node
    declaration lines x0 to x4, the four edge lines, the closing brace,
    and the line feed that ends the block of section 6, which is the
    line terminator the print statement appends. *)
Theorem main_prints_document :
  main = (Ok tt, {| handle := 5; stdout := Spec.document ++ nl |}).
Proof. unfold main. rewrite getCode_run. vm_compute. reflexivity. Qed.

(** C2. One call of simpleAST is the builder of the specification: five
    createNode calls for the labels minus, plus, 1, 2, 3 in this order,
    then the concatenation of nine fragments, the five declarations in
    creation order and the edges (minus, one), (minus, two),
    (plus, minus), (plus, three).  Read back line by line, the returned
    string is five node declarations followed by four edges, and the
    counter has moved by five. *)
Theorem simpleAST_structure (w : World) :
  simpleAST w = Spec.buildExampleTree w
  /\ yields (Spec.createNodes w)
       (fun nodes =>
          map Spec.fragment_of nodes =
          map (fun i => decl_line (ident (handle w + Z.of_nat i))
                                  (nth i Spec.labels EmptyString))
              (seq 0 5))
  /\ yields (simpleAST w)
       (fun v =>
          v = VStr (String.concat EmptyString
                      (Spec.example_fragments (handle w)))
          /\ map parse_line (lines (Spec.text_of v)) =
             [ Some (Decl (ident (handle w)) "-");
               Some (Decl (ident (handle w + 1)) "+");
               Some (Decl (ident (handle w + 2)) "1");
               Some (Decl (ident (handle w + 3)) "2");
               Some (Decl (ident (handle w + 4)) "3");
               Some (Edge (ident (handle w)) (ident (handle w + 2)));
               Some (Edge (ident (handle w)) (ident (handle w + 3)));
               Some (Edge (ident (handle w + 1)) (ident (handle w)));
               Some (Edge (ident (handle w + 1)) (ident (handle w + 4))) ])
  /\ handle (snd (simpleAST w)) = handle w + 5.
Proof.
  split; [| split; [| split]].
  - now rewrite simpleAST_run, buildExampleTree_run.
  - unfold yields. rewrite createNodes_run.
    cbn [fst map seq nth Spec.labels Spec.fragment_of Spec.text_of Z.of_nat
         Pos.of_succ_nat Pos.succ].
    now rewrite Z.add_0_r.
  - unfold yields. rewrite simpleAST_run. cbn [fst Spec.text_of].
    split; [reflexivity | apply example_items].
  - now rewrite simpleAST_run.
Qed.

(** C9. No operation fails on strings.  Whatever the label (a double
    quote in it or not), createNode returns; whatever the identifiers
    (created before or not) and the options, createChild returns;
    createWrapper returns for every body; the builder and the program
    return in every world.  The inputs occur unchanged in the results. *)
Theorem operations_total (label parent child options code : string)
  (w : World) :
  yields (createNode (VStr label) w)
    (fun node => Substring label (Spec.fragment_of node))
  /\ yields (createChild (VStr parent) (VStr child) (Some (VStr options)) w)
       (fun v => Substring parent (Spec.text_of v)
                 /\ Substring child (Spec.text_of v)
                 /\ Substring options (Spec.text_of v))
  /\ yields (createChild (VStr parent) (VStr child) None w)
       (fun v => Substring parent (Spec.text_of v)
                 /\ Substring child (Spec.text_of v))
  /\ yields (createWrapper (VStr code) w)
       (fun v => Substring code (Spec.text_of v))
  /\ yields (simpleAST w) (fun v => exists s : string, v = VStr s)
  /\ yields (getCode w) (fun _ => True).
Proof.
  unfold yields.
  rewrite createNode_str, createChild_default, !createChild_str,
    createWrapper_str, simpleAST_run, getCode_run.
  cbn [fst Spec.fragment_of Spec.text_of nth].
  unfold decl_line, edge_line.
  repeat split.
  - exists (ident (handle w) ++ " [label=" ++ dq),
      (dq ++ ",shape=circle]" ++ nl).
    now rewrite !append_assoc.
  - now exists EmptyString, (" -> " ++ child ++ options ++ nl).
  - exists (parent ++ " -> "), (options ++ nl). now rewrite !append_assoc.
  - exists (parent ++ " -> " ++ child), nl. now rewrite !append_assoc.
  - now exists EmptyString, (" -> " ++ child ++ EmptyString ++ nl).
  - exists (parent ++ " -> "), (EmptyString ++ nl).
    now rewrite !append_assoc.
  - now exists header, "}".
  - eexists; reflexivity.
Qed.


(** ** Identifiers never repeat *)

Section Runs.

Import Run.

Lemma perform_handle (c : call) (w : World) :
  handle w <= handle (snd (perform c w)).
Proof.
  destruct c as [label | p c o | code | |]; unfold perform.
  - pose proof (createNode_world label w) as H.
    destruct (createNode label w) as [r w']. simpl in *. subst w'.
    simpl. lia.
  - pose proof (createChild_frame p c o w) as H.
    destruct (createChild p c o w) as [r w']. simpl in *. subst w'. lia.
  - pose proof (createWrapper_frame code w) as H.
    destruct (createWrapper code w) as [r w']. simpl in *. subst w'. lia.
  - rewrite simpleAST_run. simpl. lia.
  - rewrite getCode_run. simpl. lia.
Qed.

(** What a successful [createNode] call in world [w] returns. *)
Lemma perform_node (label : value) (w : World) (id : string) (d : value)
  (o : outcome) (w' : World) :
  perform (CreateNode label) w = (o, w') ->
  o = Node (Ok [VStr id; d]) ->
  id = ident (handle w) /\ handle w' = handle w + 1.
Proof.
  unfold perform. intros E ->.
  destruct label as [| z | s]; try (cbv in E; congruence).
  rewrite createNode_str in E. injection E as E1 E2 E3.
  subst. split; reflexivity.
Qed.

(** Every identifier in the trace of a run comes from a counter value
    that is at least the one the run started with. *)
Lemma trace_node_from (cs : list call) :
  forall (w : World) (j : nat) (label : value) (id : string) (d : value),
    nth_error (trace cs w) j = Some (CreateNode label, Node (Ok [VStr id; d])) ->
    exists h : Z, handle w <= h /\ id = ident h.
Proof.
  induction cs as [|c cs IH]; intros w j label id d H.
  - destruct j; discriminate.
  - cbn [trace] in H. pose proof (perform_handle c w) as Hm.
    destruct (perform c w) as [o w'] eqn:E. cbn [snd] in Hm.
    destruct j as [|j]; cbn [nth_error] in H.
    + injection H as -> ->.
      destruct (perform_node _ _ _ _ _ _ E eq_refl) as [-> _].
      exists (handle w). split; [lia | reflexivity].
    + destruct (IH _ _ _ _ _ H) as (h & Hh & ->).
      exists h. split; [lia | reflexivity].
Qed.

Lemma trace_nodes_ordered (cs : list call) :
  forall (w : World) (i j : nat) (li lj : value) (idi idj : string)
         (di dj : value),
    (i < j)%nat ->
    nth_error (trace cs w) i = Some (CreateNode li, Node (Ok [VStr idi; di])) ->
    nth_error (trace cs w) j = Some (CreateNode lj, Node (Ok [VStr idj; dj])) ->
    idi <> idj.
Proof.
  induction cs as [|c cs IH]; intros w i j li lj idi idj di dj Hij Hi Hj.
  - destruct i; discriminate.
  - cbn [trace] in Hi, Hj.
    destruct (perform c w) as [o w'] eqn:E.
    destruct j as [|j]; [lia |]. cbn [nth_error] in Hj.
    destruct i as [|i]; cbn [nth_error] in Hi.
    + injection Hi as -> ->.
      destruct (perform_node _ _ _ _ _ _ E eq_refl) as [-> Hw'].
      destruct (trace_node_from _ _ _ _ _ _ Hj) as (h & Hh & ->).
      intros Heq. apply ident_inj in Heq. lia.
    + apply (IH w' i j li lj idi idj di dj); [lia | assumption | assumption].
Qed.

End Runs.

(** The direct calls first: in one run, whatever calls it is made of and
    whatever world it starts in, two different direct createNode calls
    that return do not return the same identifier.  The calls made
    inside simpleAST and getCode are treated further down. *)
Lemma identifiers_injective (w : World) (cs : list Run.call) (i j : nat)
  (li lj : value) (idi idj : string) (di dj : value) :
  i <> j ->
  nth_error (Run.trace cs w) i
    = Some (Run.CreateNode li, Run.Node (Ok [VStr idi; di])) ->
  nth_error (Run.trace cs w) j
    = Some (Run.CreateNode lj, Run.Node (Ok [VStr idj; dj])) ->
  idi <> idj.
Proof.
  intros Hij Hi Hj.
  destruct (Nat.lt_total i j) as [H | [H | H]].
  - exact (trace_nodes_ordered cs w i j li lj idi idj di dj H Hi Hj).
  - contradiction.
  - intros Heq. symmetry in Heq. revert Heq.
    exact (trace_nodes_ordered cs w j i lj li idj idi dj di H Hj Hi).
Qed.

(** A run of three calls: the identifier of the first call and the one
    of the third, made after the builder used five, differ. *)
Lemma identifiers_injective_in_a_run : "x0" <> "x6".
Proof.
  eapply (identifiers_injective init
            [Run.CreateNode (VStr "a"); Run.SimpleAST;
             Run.CreateNode (VStr "a")]
            0 2).
  - lia.
  - vm_compute. reflexivity.
  - vm_compute. reflexivity.
Defined.

(** ** Renumbering the identifiers of a text *)

Example shift_ids_mixed :
  shift_ids 7 "x x12 ax009b -> x3" = "x x19 ax16b -> x10".
Proof. reflexivity. Qed.

Lemma str_int_nonneg (z : Z) :
  0 <= z ->
  exists d : Decimal.uint,
    d <> Decimal.Nil
    /\ str_int z = NilEmpty.string_of_uint d
    /\ Z.of_uint d = z.
Proof.
  intros Hz. destruct z as [|p|p]; [| | lia].
  - exists (Decimal.D0 Decimal.Nil). repeat split; discriminate.
  - exists (Pos.to_uint p).
    pose proof (DecimalPos.Unsigned.to_uint_nonnil p) as Hn.
    split; [exact Hn | split].
    + unfold str_int. simpl. now destruct (Pos.to_uint p).
    + exact (DecimalZ.of_to (Z.pos p)).
Qed.

Lemma concat_cons (f : string) (fs : list string) :
  String.concat EmptyString (f :: fs) = f ++ String.concat EmptyString fs.
Proof. destruct fs; simpl; [now rewrite append_nil_r | reflexivity]. Qed.

Section Renumbering.

Variable k : Z.

Lemma renumber_plain (a rest : string) :
  avoids is_x a = true ->
  renumber k None (a ++ rest) = a ++ renumber k None rest.
Proof.
  induction a as [|c a IH]; intros H; [reflexivity |].
  simpl in H. apply andb_true_iff in H as [Hc Ha].
  apply negb_true_iff in Hc. unfold is_x in Hc.
  change (String c a ++ rest) with (String c (a ++ rest)).
  cbn [renumber flush append]. rewrite Hc, (IH Ha). reflexivity.
Qed.

Lemma renumber_digits (d : Decimal.uint) :
  forall (acc : Decimal.uint) (c : ascii) (rest : string),
    digit_of c = None ->
    renumber k (Some acc) (NilEmpty.string_of_uint d ++ String c rest) =
    renumber k (Some (Decimal.revapp d acc)) (String c rest).
Proof.
  induction d; intros acc c rest Hc;
    [ reflexivity
    | cbn [NilEmpty.string_of_uint append renumber digit_of Decimal.revapp];
      now apply IHd .. ].
Qed.

(** An identifier with a number that is not negative, followed by a
    character that cannot continue it, is replaced by the identifier of
    the shifted number. *)
Lemma renumber_ident (z : Z) (c : ascii) (rest : string) :
  0 <= z -> digit_of c = None -> is_x c = false ->
  renumber k None (ident z ++ String c rest) =
  ident (z + k) ++ String c (renumber k None rest).
Proof.
  intros Hz Hc Hx. destruct (str_int_nonneg z Hz) as (d & Hd & E & V).
  unfold ident at 1. rewrite E.
  change (("x" ++ NilEmpty.string_of_uint d) ++ String c rest)
    with (String "x" (NilEmpty.string_of_uint d ++ String c rest)).
  cbn [renumber digit_of flush append Ascii.eqb Bool.eqb].
  rewrite renumber_digits by assumption.
  cbn [renumber]. rewrite Hc. unfold is_x in Hx. rewrite Hx.
  change (Decimal.revapp d Decimal.Nil) with (Decimal.rev d).
  assert (F : flush k (Some (Decimal.rev d)) = ident (z + k)).
  { unfold flush. destruct (Decimal.rev d) eqn:R;
      try (rewrite <- R, rev_rev, V; reflexivity).
    now apply rev_nil_inv in R. }
  now rewrite F.
Qed.

Lemma shift_decl (z : Z) (label rest : string) :
  0 <= z -> avoids is_x label = true ->
  renumber k None (decl_line (ident z) label ++ rest) =
  decl_line (ident (z + k)) label ++ renumber k None rest.
Proof.
  intros Hz Hl. unfold decl_line. rewrite !append_assoc.
  match goal with
  | |- context [ident z ++ " [label=" ++ ?t] =>
      change (" [label=" ++ t) with (String " " ("[label=" ++ t))
  end.
  rewrite (renumber_ident z " ") by (assumption || reflexivity).
  repeat rewrite renumber_plain by (assumption || reflexivity).
  reflexivity.
Qed.

Lemma shift_edge (a b : Z) (rest : string) :
  0 <= a -> 0 <= b ->
  renumber k None (edge_line (ident a) (ident b) EmptyString ++ rest) =
  edge_line (ident (a + k)) (ident (b + k)) EmptyString
  ++ renumber k None rest.
Proof.
  intros Ha Hb. unfold edge_line. rewrite !append_assoc.
  change (" -> " ++ ident b ++ EmptyString ++ nl ++ rest)
    with (String " " ("-> " ++ ident b ++ String "010" rest)).
  rewrite (renumber_ident a " ") by (assumption || reflexivity).
  rewrite (renumber_plain "-> ") by reflexivity.
  rewrite (renumber_ident b "010") by (assumption || reflexivity).
  reflexivity.
Qed.

(** Renumbering the text of one call gives the text of a call that
    starts [k] further. *)
Lemma shift_example (c : Z) :
  0 <= c ->
  shift_ids k (String.concat EmptyString (Spec.example_fragments c)) =
  String.concat EmptyString (Spec.example_fragments (c + k)).
Proof.
  intros Hc. unfold shift_ids, Spec.example_fragments.
  rewrite !concat_cons.
  rewrite !shift_decl by (lia || reflexivity).
  rewrite !shift_edge by lia.
  replace (c + 1 + k) with (c + k + 1) by lia.
  replace (c + 2 + k) with (c + k + 2) by lia.
  replace (c + 3 + k) with (c + k + 3) by lia.
  replace (c + 4 + k) with (c + k + 4) by lia.
  reflexivity.
Qed.

End Renumbering.

(** C7. Two calls of simpleAST in a row, the counter not being negative
    before the first: both return a string, and the second string is the
    first one with every identifier's number raised by the distance the
    first call moved the counter, which is five; the counter moves on by
    five again.  When the first call starts from 0, that distance is the
    counter value reached after the first call, the first string uses x0
    to x4 and the second x5 to x9. *)
Theorem simpleAST_twice (w : World) :
  0 <= handle w ->
  match simpleAST w with
  | (Ok (VStr s1), w1) =>
      match simpleAST w1 with
      | (Ok (VStr s2), w2) =>
          s2 = shift_ids (handle w1 - handle w) s1
          /\ handle w1 = handle w + 5
          /\ handle w2 = handle w1 + 5
          /\ (handle w = 0 ->
              s2 = shift_ids (handle w1) s1
              /\ s1 = String.concat EmptyString (Spec.example_fragments 0)
              /\ s2 = String.concat EmptyString (Spec.example_fragments 5))
      | _ => False
      end
  | _ => False
  end.
Proof.
  intros Hw. rewrite simpleAST_run, simpleAST_run. cbn [handle stdout].
  replace (handle w + 5 - handle w) with 5 by lia.
  rewrite shift_example by assumption.
  split; [reflexivity | split; [reflexivity | split; [reflexivity |]]].
  intros H0. rewrite H0. rewrite shift_example by lia.
  repeat split.
Qed.

(** The two calls made from the initial world. *)
Lemma simpleAST_twice_from_init :
  match simpleAST init with
  | (Ok (VStr s1), w1) =>
      match simpleAST w1 with
      | (Ok (VStr s2), w2) =>
          s2 = shift_ids (handle w1 - handle init) s1
          /\ handle w1 = handle init + 5
          /\ handle w2 = handle w1 + 5
          /\ (handle init = 0 ->
              s2 = shift_ids (handle w1) s1
              /\ s1 = String.concat EmptyString (Spec.example_fragments 0)
              /\ s2 = String.concat EmptyString (Spec.example_fragments 5))
      | _ => False
      end
  | _ => False
  end.
Proof. apply (simpleAST_twice init). simpl. lia. Defined.

(** ** All the identifiers of a run

    The identifiers created inside a call of the builder count too: the
    list of every identifier handed out in a run has no repetition. *)

Section Issued.

Import Run.






End Issued.

(** The counter is never negative in a process: it starts at 0 and no
    call lowers it. *)
Lemma final_handle (cs : list Run.call) :
  forall w : World, handle w <= handle (Run.final cs w).
Proof.
  induction cs as [|c cs IH]; intros w; cbn [Run.final]; [lia |].
  pose proof (perform_handle c w). pose proof (IH (snd (Run.perform c w))).
  lia.
Qed.

Lemma reachable_handle_nonneg (cs : list Run.call) :
  0 <= handle (Run.final cs init).
Proof. exact (final_handle cs init). Qed.

(** * Further properties of the script *)

Import Account.

(** ** Failure of the builders *)



(** ** The counter and the output over a run *)

Lemma perform_advance (c : Run.call) (w : World) :
  handle (snd (Run.perform c w)) = handle w + advance c.
Proof.
  destruct c as [label | p c o | code | |]; unfold Run.perform.
  - pose proof (createNode_world label w) as H.
    destruct (createNode label w) as [r w']. simpl in *. now subst w'.
  - pose proof (createChild_frame p c o w) as H.
    destruct (createChild p c o w) as [r w']. simpl in *. subst w'. lia.
  - pose proof (createWrapper_frame code w) as H.
    destruct (createWrapper code w) as [r w']. simpl in *. subst w'. lia.
  - now rewrite simpleAST_run.
  - now rewrite getCode_run.
Qed.

Lemma perform_stdout (c : Run.call) (w : World) :
  stdout (snd (Run.perform c w)) =
  stdout w ++ (if is_getCode c then document_at w ++ nl else EmptyString).
Proof.
  destruct c as [label | p c o | code | |]; unfold Run.perform;
    cbn [is_getCode].
  - pose proof (createNode_world label w) as H.
    destruct (createNode label w) as [r w']. simpl in *. subst w'.
    simpl. now rewrite append_nil_r.
  - pose proof (createChild_frame p c o w) as H.
    destruct (createChild p c o w) as [r w']. simpl in *. subst w'.
    now rewrite append_nil_r.
  - pose proof (createWrapper_frame code w) as H.
    destruct (createWrapper code w) as [r w']. simpl in *. subst w'.
    now rewrite append_nil_r.
  - rewrite simpleAST_run. simpl. now rewrite append_nil_r.
  - rewrite getCode_run. unfold document_at.
    rewrite simpleAST_run, createWrapper_str. reflexivity.
Qed.

(** X3. The counter after a run is the counter before it plus one for
    every createNode call, failed ones included, plus five for every
    call of simpleAST or getCode; createChild and createWrapper do not
    count. *)
Theorem counter_accounting (cs : list Run.call) :
  forall w : World, handle (Run.final cs w) = handle w + requested cs.
Proof.
  induction cs as [|c cs IH]; intros w; cbn [Run.final requested].
  - lia.
  - rewrite IH, perform_advance. lia.
Qed.

(** X4. Nothing but getCode writes, and nothing is ever taken back: the
    output after a run is the output before it followed by one document
    and one line feed per getCode call, in call order, each document
    being what createWrapper(simpleAST()) gives at the time of its call. *)
Theorem stdout_accounting (cs : list Run.call) :
  forall w : World,
    stdout (Run.final cs w) =
    stdout w ++
    String.concat EmptyString
      (map (fun d => d ++ nl) (documents cs w))
    /\ List.length (documents cs w)
       = List.length (filter is_getCode cs).
Proof.
  induction cs as [|c cs IH]; intros w; cbn [Run.final documents filter].
  - split; [simpl; now rewrite append_nil_r | reflexivity].
  - destruct (IH (snd (Run.perform c w))) as [E L].
    rewrite E, perform_stdout, length_app, L.
    destruct c; cbn [is_getCode app map List.length];
      rewrite ?append_nil_r; split; try reflexivity.
    rewrite concat_cons. now rewrite !append_assoc.
Qed.

Example document_at_init : document_at init = Spec.document.
Proof. reflexivity. Qed.

(** ** The identifiers of a run, again *)

Section Consecutive.






End Consecutive.



Section Wellformed.



End Wellformed.


(** ** Line feeds in the arguments *)

Section LineCount.

Lemma count_nl_append (a b : string) :
  count_nl (a ++ b) = (count_nl a + count_nl b)%nat.
Proof.
  induction a as [|c a IH]; simpl; [reflexivity |]. rewrite IH. lia.
Qed.

Lemma avoids_count_nl (s : string) :
  avoids is_nl s = true -> count_nl s = 0%nat.
Proof.
  induction s as [|c s IH]; simpl; [reflexivity |]. intros H.
  apply andb_true_iff in H as [Hc Hs]. apply negb_true_iff in Hc.
  rewrite Hc, (IH Hs). reflexivity.
Qed.

Lemma lines_count (s : string) :
  List.length (lines (s ++ nl)) = S (count_nl s).
Proof.
  induction s as [|c s IH]; [reflexivity |].
  change (String c s ++ nl) with (String c (s ++ nl)).
  cbn [lines count_nl]. unfold is_nl.
  destruct (Ascii.eqb c "010").
  - cbn [List.length]. now rewrite IH.
  - destruct (lines (s ++ nl)) as [|l ls]; [discriminate |].
    cbn [List.length] in *. lia.
Qed.

End LineCount.

(** X7. Line feeds pass through unchecked: the declaration fragment of
    createNode has one line more than its label has line feeds, and the
    edge fragment of createChild one line more than parent, child and
    options have line feeds together.  Each is a single line exactly
    when its arguments hold no line feed. *)
Theorem fragment_line_count (label parent child options : string)
  (w : World) :
  yields (createNode (VStr label) w)
    (fun node =>
       List.length (lines (Spec.fragment_of node)) = S (count_nl label))
  /\ yields (createChild (VStr parent) (VStr child) (Some (VStr options)) w)
       (fun v =>
          List.length (lines (Spec.text_of v)) =
          S (count_nl parent + count_nl child + count_nl options)).
Proof.
  unfold yields. rewrite createNode_str, createChild_str.
  cbn [fst Spec.fragment_of Spec.text_of nth]. split.
  - rewrite decl_line_split, lines_count, !count_nl_append.
    rewrite (avoids_count_nl (ident (handle w)))
      by (apply ident_avoids; reflexivity).
    simpl. lia.
  - unfold edge_line.
    replace (parent ++ " -> " ++ child ++ options ++ nl)
      with ((parent ++ " -> " ++ child ++ options) ++ nl)
      by now rewrite !append_assoc.
    rewrite lines_count, !count_nl_append. simpl. lia.
Qed.

(** ** Fragments determine their arguments *)

Section Injectivity.

Lemma append_inv_tail (t : string) :
  forall s s' : string, s ++ t = s' ++ t -> s = s'.
Proof.
  induction s as [|c s IH]; intros [|c' s'] E.
  - reflexivity.
  - apply (f_equal length) in E. simpl in E. rewrite length_append in E. lia.
  - apply (f_equal length) in E. simpl in E. rewrite length_append in E. lia.
  - simpl in E. injection E as -> E. now rewrite (IH _ E).
Qed.

(** Two words, each followed by a space: the words and what follows are
    determined by the whole. *)
Lemma word_split_unique (a : string) :
  forall b r r' : string,
    avoids is_space a = true -> avoids is_space b = true ->
    a ++ String " " r = b ++ String " " r' -> a = b /\ r = r'.
Proof.
  induction a as [|c a IH]; intros [|c' b] r r' Ha Hb E; simpl in *.
  - injection E as ->. now split.
  - injection E as <- _. cbv in Hb. discriminate.
  - injection E as -> _. cbv in Ha. discriminate.
  - apply andb_true_iff in Ha as [_ Ha]. apply andb_true_iff in Hb as [_ Hb].
    injection E as -> E. destruct (IH _ _ _ Ha Hb E) as [-> ->]. now split.
Qed.

Lemma decl_line_inj (a b : Z) (l1 l2 : string) :
  decl_line (ident a) l1 = decl_line (ident b) l2 -> a = b /\ l1 = l2.
Proof.
  unfold decl_line. intros E.
  apply word_split_unique in E as [Ei E];
    try (apply ident_avoids; reflexivity).
  split; [now apply ident_inj |].
  simpl in E. injection E as E.
  now apply append_inv_tail in E.
Qed.

End Injectivity.

(** X9. The declaration fragment of createNode determines the node: two
    calls, in whatever worlds, that return the same fragment found the
    same counter value, were given the same label and returned the same
    identifier. *)
Theorem createNode_fragment_injective (l1 l2 : string) (w1 w2 : World)
  (n1 n2 : list value) (w1' w2' : World) :
  createNode (VStr l1) w1 = (Ok n1, w1') ->
  createNode (VStr l2) w2 = (Ok n2, w2') ->
  Spec.fragment_of n1 = Spec.fragment_of n2 ->
  handle w1 = handle w2 /\ l1 = l2 /\ Spec.id_of n1 = Spec.id_of n2.
Proof.
  rewrite !createNode_str. intros [= <- _] [= <- _].
  cbn [Spec.fragment_of Spec.id_of Spec.text_of nth]. intros E.
  apply decl_line_inj in E as [-> ->]. now repeat split.
Qed.

(** Two calls that find the counter at 0, one of them after some text
    was printed. *)
Lemma createNode_fragment_injective_at_init :
  handle init = handle {| handle := 0; stdout := "seen" |}
  /\ "a" = "a"
  /\ Spec.id_of [VStr (ident 0); VStr (decl_line (ident 0) "a")] =
     Spec.id_of [VStr (ident 0); VStr (decl_line (ident 0) "a")].
Proof.
  eapply (createNode_fragment_injective "a" "a" init
            {| handle := 0; stdout := "seen" |});
    reflexivity.
Defined.

(** ** Reading single fragments back *)

Section RoundTrip.

Lemma strip_prefix_append (p r : string) : strip_prefix p (p ++ r) = Some r.
Proof.
  induction p as [|c p IH]; simpl; [now destruct r |].
  now rewrite Ascii.eqb_refl.
Qed.

Lemma split_at_here (p r : string) :
  split_at p (p ++ r) = Some (EmptyString, r).
Proof.
  pose proof (strip_prefix_append p r) as H.
  destruct (p ++ r); simpl; now rewrite H.
Qed.

Lemma strip_suffix_append (p s : string) : strip_suffix p (s ++ p) = Some s.
Proof.
  unfold strip_suffix. rewrite length_append.
  replace (length s + length p - length p)%nat with (length s) by lia.
  replace (length p <=? length s + length p)%nat with true
    by (symmetry; apply Nat.leb_le; lia).
  rewrite substring_skip, substring_all.
  rewrite <- (append_nil_r p) at 2. rewrite substring_all.
  now rewrite String.eqb_refl.
Qed.

Lemma lines_single (l : string) :
  avoids is_nl l = true -> lines (l ++ nl) = [l].
Proof.
  intros H. rewrite <- (append_nil_r (l ++ nl)), append_assoc.
  now rewrite lines_cons.
Qed.

Lemma no_arrow_in_decl (label : string) :
  avoids is_space label = true ->
  split_at " -> " (" [label=" ++ dq ++ label ++ dq ++ ",shape=circle]") = None.
Proof.
  intros H.
  change (" [label=" ++ dq ++ label ++ dq ++ ",shape=circle]")
    with (String " " (("[label=" ++ dq) ++ label ++ dq ++ ",shape=circle]")).
  cbn [split_at strip_prefix Ascii.eqb Bool.eqb].
  rewrite <- append_assoc.
  rewrite (split_at_skip "-> " (("[label=" ++ dq) ++ label))
    by (rewrite avoids_append, H; reflexivity).
  reflexivity.
Qed.

Lemma parse_decl_line (id label : string) :
  avoids is_space id = true ->
  avoids is_space label = true ->
  parse_line (id ++ " [label=" ++ dq ++ label ++ dq ++ ",shape=circle]") =
  Some (Decl id label).
Proof.
  intros Hi Hl. unfold parse_line.
  rewrite (split_at_skip "-> " id) by assumption.
  rewrite (no_arrow_in_decl label Hl).
  rewrite (split_at_skip ("[label=" ++ dq) id) by assumption.
  change (" [label=" ++ dq ++ label ++ dq ++ ",shape=circle]")
    with ((" [label=" ++ dq) ++ label ++ dq ++ ",shape=circle]").
  rewrite split_at_here, append_nil_r.
  now rewrite (strip_suffix_append (dq ++ ",shape=circle]") label).
Qed.

Lemma parse_edge_line (parent child : string) :
  avoids is_space parent = true ->
  parse_line (parent ++ " -> " ++ child) = Some (Edge parent child).
Proof.
  intros H. unfold parse_line.
  rewrite (split_at_skip "-> " parent) by assumption.
  rewrite (split_at_here " -> " child).
  now rewrite append_nil_r.
Qed.

End RoundTrip.

(** X10. An edge fragment reads back as its edge: for a parent without
    space or line feed and a child without line feed, the text that
    createChild returns without options is one line, and that line
    parses as the edge from parent to child. *)
Theorem edge_fragment_roundtrip (parent child : string) (w : World) :
  avoids is_space parent = true ->
  avoids is_nl parent = true ->
  avoids is_nl child = true ->
  yields (createChild (VStr parent) (VStr child) None w)
    (fun v =>
       map parse_line (lines (Spec.text_of v)) = [Some (Edge parent child)]).
Proof.
  intros Hs Hp Hc. unfold yields.
  rewrite createChild_default, createChild_str.
  cbn [fst Spec.text_of]. rewrite edge_line_split.
  rewrite lines_single by (rewrite !avoids_append, Hp, Hc; reflexivity).
  cbn [map]. now rewrite parse_edge_line.
Qed.

Lemma edge_fragment_roundtrip_x0_x2 :
  yields (createChild (VStr "x0") (VStr "x2") None init)
    (fun v =>
       map parse_line (lines (Spec.text_of v)) = [Some (Edge "x0" "x2")]).
Proof. apply edge_fragment_roundtrip; reflexivity. Defined.

(** X11. A declaration fragment reads back as its node: for a label
    without space or line feed, in every world, the fragment createNode
    returns is one line, and that line parses as the declaration of the
    returned identifier with that label, double quotes in the label or
    not. *)
Theorem decl_fragment_roundtrip (label : string) (w : World) :
  avoids is_space label = true ->
  avoids is_nl label = true ->
  yields (createNode (VStr label) w)
    (fun node =>
       map parse_line (lines (Spec.fragment_of node)) =
       [Some (Decl (Spec.id_of node) label)]).
Proof.
  intros Hs Hn. unfold yields. rewrite createNode_str.
  cbn [fst Spec.fragment_of Spec.id_of Spec.text_of nth].
  rewrite decl_line_split.
  rewrite lines_single
    by (rewrite !avoids_append, Hn, ident_avoids by reflexivity;
        reflexivity).
  cbn [map]. rewrite parse_decl_line; [reflexivity | | assumption].
  apply ident_avoids. reflexivity.
Qed.

Lemma decl_fragment_roundtrip_quoted :
  yields (createNode (VStr ("a" ++ dq ++ "b")) init)
    (fun node =>
       map parse_line (lines (Spec.fragment_of node)) =
       [Some (Decl (Spec.id_of node) ("a" ++ dq ++ "b"))]).
Proof. apply decl_fragment_roundtrip; reflexivity. Defined.

(** ** The closing brace *)

Section Wrapper.

Lemma lines_app_nl (s t : string) :
  lines ((s ++ nl) ++ t) = (lines (s ++ nl) ++ lines t)%list.
Proof.
  induction s as [|c s IH]; [reflexivity |].
  change ((String c s ++ nl) ++ t) with (String c ((s ++ nl) ++ t)).
  change (String c s ++ nl) with (String c (s ++ nl)).
  cbn [lines]. rewrite IH.
  destruct (Ascii.eqb c "010"); [reflexivity |].
  pose proof (lines_count s) as L.
  destruct (lines (s ++ nl)) as [|l ls]; [discriminate | reflexivity].
Qed.

Lemma lines_no_nl (s : string) :
  avoids is_nl s = true -> s <> EmptyString -> lines s = [s].
Proof.
  induction s as [|c s IH]; intros H Hne; [contradiction |].
  simpl in H. apply andb_true_iff in H as [Hc Hs].
  apply negb_true_iff in Hc. unfold is_nl in Hc.
  cbn [lines]. rewrite Hc.
  destruct s as [|c' s']; [reflexivity |].
  rewrite (IH Hs); [reflexivity | discriminate].
Qed.

End Wrapper.

(** X12. Around a body whose last character is a line feed, createWrapper
    adds exactly two lines: the header line before the lines of the body
    and a line holding only the closing brace after them. *)
Theorem createWrapper_lines (body : string) (w : World) :
  yields (createWrapper (VStr (body ++ nl)) w)
    (fun v =>
       lines (Spec.text_of v) =
       ("strict digraph X {" :: lines (body ++ nl)) ++ ["}"])%list.
Proof.
  unfold yields. rewrite createWrapper_str. cbn [fst Spec.text_of].
  unfold header. rewrite append_assoc.
  change (nl ++ (body ++ nl) ++ "}") with (nl ++ ((body ++ nl) ++ "}")).
  rewrite lines_cons by reflexivity.
  now rewrite lines_app_nl.
Qed.

(** X13. createWrapper puts no line feed before the closing brace: around
    a body without line feed (the empty body included) the brace ends up
    on the line of the body, and the document has two lines. *)
Theorem createWrapper_brace_joins (body : string) (w : World) :
  avoids is_nl body = true ->
  yields (createWrapper (VStr body) w)
    (fun v => lines (Spec.text_of v) = ["strict digraph X {"; body ++ "}"]).
Proof.
  intros H. unfold yields. rewrite createWrapper_str.
  cbn [fst Spec.text_of]. unfold header. rewrite append_assoc.
  rewrite lines_cons by reflexivity.
  rewrite lines_no_nl; [reflexivity | |].
  - rewrite avoids_append, H. reflexivity.
  - destruct body; discriminate.
Qed.

Lemma createWrapper_brace_joins_edge :
  yields (createWrapper (VStr "a -> b") init)
    (fun v =>
       lines (Spec.text_of v) = ["strict digraph X {"; "a -> b" ++ "}"]).
Proof. apply createWrapper_brace_joins. reflexivity. Defined.

(** ** Documents of one process *)

Section Documents.



End Documents.




(** ** Identifiers never repeat, the calls inside the builder included *)

Section Increasing.

Import Run.





(** What a direct createNode call returned, as the trace of the run
    records it, is in the list of the identifiers of the run. *)
Lemma trace_node_issued (cs : list call) :
  forall (w : World) (k : nat) (label : value) (id : string) (d : value),
    nth_error (trace cs w) k
      = Some (CreateNode label, Node (Ok [VStr id; d])) ->
    In id (all_issued cs w).
Proof.
  induction cs as [|c cs IH]; intros w k label id d H.
  - now destruct k.
  - cbn [trace all_issued] in *.
    destruct (perform c w) as [o w'] eqn:E. apply in_or_app.
    destruct k as [|k]; cbn [nth_error snd] in *.
    + left. injection H as -> ->. cbn [perform issued] in *.
      destruct (createNode label w) as [r w''].
      injection E as -> _. now left.
    + right. exact (IH _ _ _ _ _ H).
Qed.

End Increasing.


